(** * update_changelog.py: the changelog updater, embedded and verified

    The script [.github/scripts/update_changelog.py] asks git for the last
    twenty non-merge commits, formats them as a dated section and rewrites
    [CHANGELOG.md] with that section appended.

    Python values are embedded as follows.
    - A [str] is a list of Unicode code points ([N]).
    - The process environment (what the git subprocess answers, the UTC
      date, the stored changelog file) is a record [world]; the script is a
      computation in a state-and-exception monad over it that also records
      the I/O calls it performs, in order.
    - Text-mode I/O is the POSIX one ([os.linesep] is a line feed): reading
      the file, and reading the output of the subprocess under
      [text=True], applies universal-newline translation; writing stores
      the text as given.
    - The changelog file is either absent or a readable and writable UTF-8
      text: a read or a write that the operating system refuses
      (permissions, a directory in its place, undecodable bytes, a full
      disk) is outside the model, which speaks of the runs whose file
      operations go through. *)

From Stdlib Require Import Ascii String List NArith Lia Bool.
Import ListNotations.
Local Open Scope N_scope.

Set Implicit Arguments.

(** ** Python strings *)

Module PyStr.

Definition char := N.
Definition str := list char.

Definition LF : char := 10.
Definition CR : char := 13.

(** Reader for the string literals of the source: every character stands
    for its code point, and the escapes [\n] and [\r] (a backslash, code
    092, then the letter) are the only ones interpreted, as Python does for
    the literals of this script. *)
Fixpoint py (s : string) : str :=
  match s with
  | EmptyString => []
  | String a r =>
      match a, r with
      | "092"%char, String "n"%char r' => LF :: py r'
      | "092"%char, String "r"%char r' => CR :: py r'
      | _, _ => N_of_ascii a :: py r
      end
  end.

(** [a == b] on strings *)
Fixpoint str_eqb (a b : str) : bool :=
  match a, b with
  | [], [] => true
  | x :: a', y :: b' => (x =? y) && str_eqb a' b'
  | _, _ => false
  end.

(** [s.startswith(prefix)] *)
Fixpoint startswith (prefix s : str) : bool :=
  match prefix, s with
  | [], _ => true
  | _ :: _, [] => false
  | p :: prefix', c :: s' => (p =? c) && startswith prefix' s'
  end.

(** [str.isspace] for one code point: the characters [str.strip()] removes. *)
Definition isspace (c : char) : bool :=
  ((9 <=? c) && (c <=? 13)) || ((28 <=? c) && (c <=? 32))
  || (c =? 133) || (c =? 160) || (c =? 5760)
  || ((8192 <=? c) && (c <=? 8202))
  || (c =? 8232) || (c =? 8233) || (c =? 8239) || (c =? 8287)
  || (c =? 12288).

Fixpoint lstrip (s : str) : str :=
  match s with
  | [] => []
  | c :: r => if isspace c then lstrip r else s
  end.

Definition rstrip (s : str) : str := rev (lstrip (rev s)).

(** [s.strip()] *)
Definition strip (s : str) : str := rstrip (lstrip s).

(** [s.split(sep)] for a one-character separator: one more piece than there
    are separators, so never the empty list. *)
Fixpoint split (sep : char) (s : str) : list str :=
  match s with
  | [] => [[]]
  | c :: r =>
      if c =? sep then [] :: split sep r
      else match split sep r with
           | [] => [[c]]
           | piece :: pieces => (c :: piece) :: pieces
           end
  end.

(** [sep.join(parts)] *)
Fixpoint join (sep : str) (parts : list str) : str :=
  match parts with
  | [] => []
  | p :: rest =>
      match rest with
      | [] => p
      | _ :: _ => p ++ sep ++ join sep rest
      end
  end.

(** Universal newlines, applied by a text-mode read opened with the
    default [newline=None]: [\r\n] and a lone [\r] both come back as [\n]. *)
Fixpoint universal_newlines (s : str) : str :=
  match s with
  | [] => []
  | c :: r =>
      if c =? CR then
        LF :: match r with
              | [] => []
              | d :: r' => if d =? LF then universal_newlines r'
                           else universal_newlines r
              end
      else c :: universal_newlines r
  end.

End PyStr.
Import PyStr.

(** ** The environment of a run *)

(** What [subprocess.check_output] can raise, and what opening a missing
    file for reading raises. *)
Inductive exn : Type :=
| CalledProcessError (returncode : N)
| FileNotFoundError.

(** The calendar date of [datetime.utcnow()]. *)
Record date : Type := mkDate { year : N; month : N; day : N }.

(** The I/O calls of the script, as they are recorded in the trace. *)
Inductive event : Type :=
| CheckOutput                 (* subprocess.check_output(["git", "log", ...]) *)
| UtcNow                      (* datetime.utcnow() *)
| PathExists                  (* os.path.exists(CHANGELOG_FILE) *)
| OpenRead                    (* open(CHANGELOG_FILE, "r") and f.read() *)
| OpenWrite                   (* open(CHANGELOG_FILE, "w"): creates or truncates *)
| FWrite (data : str).        (* f.write(data) *)

Record world : Type := mkWorld {
  git_log : exn + str;        (* what the git subprocess prints, or how it fails *)
  utc_today : date;
  changelog : option str;     (* stored text of CHANGELOG.md, None when absent *)
  trace : list event          (* calls performed so far, oldest first *)
}.

Definition record_event (e : event) (w : world) : world :=
  mkWorld (git_log w) (utc_today w) (changelog w) (trace w ++ [e]).

Definition set_changelog (c : str) (w : world) : world :=
  mkWorld (git_log w) (utc_today w) (Some c) (trace w).

(** ** State and exception monad *)

Definition M (A : Type) : Type := world -> (exn + A) * world.

Definition ret {A} (a : A) : M A := fun w => (inr a, w).

Definition bind {A B} (m : M A) (k : A -> M B) : M B :=
  fun w =>
    match m w with
    | (inl e, w') => (inl e, w')
    | (inr a, w') => k a w'
    end.

Declare Scope py_scope.
Delimit Scope py_scope with py.
Notation "x <- m ;; k" := (bind m (fun x => k))
  (at level 61, m at next level, right associativity) : py_scope.
Notation "m ;; k" := (bind m (fun _ => k))
  (at level 61, right associativity) : py_scope.
Local Open Scope py_scope.

(** ** Library calls *)

(** [subprocess.check_output(..., text=True)]: the output of the
    subprocess read in text mode, hence with universal newlines, or the
    exception of a non-zero exit status. *)
Definition check_output : M str :=
  fun w =>
    (match git_log w with
     | inl e => inl e
     | inr out => inr (universal_newlines out)
     end,
     record_event CheckOutput w).

Definition digit (n : N) : char := 48 + n mod 10.

(** [datetime.utcnow().strftime("%Y-%m-%d")]: four digits of year (a
    datetime's year is at most 9999), two of month, two of day. *)
Definition strftime_Ymd (d : date) : str :=
  [digit (year d / 1000); digit (year d / 100); digit (year d / 10); digit (year d)]
  ++ py "-" ++ [digit (month d / 10); digit (month d)]
  ++ py "-" ++ [digit (day d / 10); digit (day d)].

Definition utcnow : M date :=
  fun w => (inr (utc_today w), record_event UtcNow w).

Definition path_exists : M bool :=
  fun w => (inr (match changelog w with Some _ => true | None => false end),
            record_event PathExists w).

(** [with open(CHANGELOG_FILE, "r", encoding="utf-8") as f: f.read()], for
    a file that is absent or a readable text. *)
Definition read_file : M str :=
  fun w =>
    match changelog w with
    | Some c => (inr (universal_newlines c), record_event OpenRead w)
    | None => (inl FileNotFoundError, record_event OpenRead w)
    end.

(** [open(CHANGELOG_FILE, "w", encoding="utf-8")], when the file may be
    created or written: it exists and is empty afterwards. *)
Definition open_write : M unit :=
  fun w => (inr tt, record_event OpenWrite (set_changelog [] w)).

(** [f.write(data)] on the file just opened, when the write goes through. *)
Definition f_write (data : str) : M unit :=
  fun w =>
    let old := match changelog w with Some c => c | None => [] end in
    (inr tt, record_event (FWrite data) (set_changelog (old ++ data) w)).

(** ** The script *)

Definition CHANGELOG_HEADER : str := py "# Changelog".

Definition get_commit_log : M (list str) :=
  log <- check_output ;;
  ret (split LF (strip log)).

(** The list [new_section] built by [update_changelog]. *)
Definition new_section (date_str : str) (commits : list str) : list str :=
  [py "## " ++ date_str ++ py "\n"]
  ++ map (fun c => py "- " ++ c) commits
  ++ [py "\n"].

(** [old_content] after the header conditional. *)
Definition with_header (old_content : str) : str :=
  if negb (startswith CHANGELOG_HEADER old_content)
  then py "# Changelog\n\n" ++ old_content
  else old_content.

Definition update_changelog : M unit :=
  commits <- get_commit_log ;;
  match commits with
  | [] => ret tt
  | _ :: _ =>
      today <- utcnow ;;
      let date_str := strftime_Ymd today in
      let new_section := new_section date_str commits in
      old_content <-
        (ex <- path_exists ;;
         if ex then read_file else ret []) ;;
      let old_content := with_header old_content in
      open_write ;;
      f_write (old_content ++ join (py "\n") new_section)
  end.

(** A run of the script from a stored file and an empty trace. *)
Definition run (git : exn + str) (today : date) (file : option str)
  : (exn + unit) * world :=
  update_changelog (mkWorld git today file []).

Definition d20240501 : date := mkDate 2024 5 1.

(** ** Vocabulary of the statements *)

(** The value of [old_content] after the existence test and the read:
    the empty string for an absent file, the text-mode read otherwise. *)
Definition old_content_of (file : option str) : str :=
  match file with
  | Some c => universal_newlines c
  | None => []
  end.

(** The list [commits] that [get_commit_log] returns when the subprocess
    prints [log]. *)
Definition commits_of (log : str) : list str :=
  split LF (strip (universal_newlines log)).

(** The text of the new section, [chr(10).join(new_section)]. *)
Definition section_text (d : date) (commits : list str) : str :=
  join (py "\n") (new_section (strftime_Ymd d) commits).

(** The lines of a text: its maximal pieces without a line feed. *)
Definition lines (s : str) : list str := split LF s.

Definition bullet (c : str) : str := py "- " ++ c.

Definition is_bullet (l : str) : bool := startswith (py "- ") l.

(** The calls that touch the file for writing. *)
Definition is_write_event (e : event) : bool :=
  match e with
  | OpenWrite | FWrite _ => true
  | _ => false
  end.

(** The I/O calls of a run that reaches the write. *)
Definition trace_of_write (file : option str) (data : str) : list event :=
  [CheckOutput; UtcNow; PathExists]
  ++ (match file with Some _ => [OpenRead] | None => [] end)
  ++ [OpenWrite; FWrite data].

(** The section text as the specification words it: the heading line, one
    bullet line per commit right after it, then a blank line. *)
Definition section_as_specified (d : date) (commits : list str) : str :=
  py "## " ++ strftime_Ymd d ++ [LF]
  ++ concat (map (fun c => bullet c ++ [LF]) commits) ++ [LF].

(** The merged document as the specification words it: the prior content,
    with the header when it lacked one, a separating blank line, the new
    section. *)
Definition merged_as_specified (old_content section : str) : str :=
  with_header old_content ++ py "\n" ++ section.

(** The first line of a document. *)
Definition first_line (doc : str) : str := hd [] (lines doc).

(** Number of lines of [doc] that are the header line. *)
Definition header_count (doc : str) : nat :=
  length (filter (str_eqb CHANGELOG_HEADER) (lines doc)).

(** The invariant of the changelog document: it begins with the header
    line, and that line occurs once. *)
Definition header_once (doc : str) : Prop :=
  first_line doc = CHANGELOG_HEADER /\ header_count doc = 1%nat.

Definition ends_with_newline (s : str) : Prop := exists body, s = body ++ [LF].




(** Prior contents from which a run keeps the invariant: nothing (absent
    or empty file), or a document that has it and ends its last line. *)
Definition settled (old_content : str) : Prop :=
  old_content = [] \/ (header_once old_content /\ ends_with_newline old_content).

(** A line of the query output, [%h %s]: no line feed in it, and it begins
    with a character that is not white space (the abbreviated hash). *)
Definition commit_line (l : str) : Prop :=
  ~ In LF l /\ exists c r, l = c :: r /\ isspace c = false.

(** The commit lines as [get_commit_log] hands them on: [strip] removes the
    white space that ends the output, that is, the one ending the last
    line. *)
Definition stripped_lines (ls : list str) : list str :=
  removelast ls ++ [rstrip (last ls [])].

(** ** Runs in a row *)

(** Successive runs of the script, each with the output of its query and
    its date, the file written by one being the prior file of the next. *)
Fixpoint run_all (inputs : list (str * date)) (file : option str) : option str :=
  match inputs with
  | [] => file
  | (log, d) :: rest => run_all rest (changelog (snd (run (inr log) d file)))
  end.

(** The section that the run with query output and date [i] appends. *)
Definition section_of (i : str * date) : str :=
  section_text (snd i) (commits_of (fst i)).

(** A text made of white space only (the empty text included). *)
Definition blank (s : str) : Prop := Forall (fun c => isspace c = true) s.

(** Number of line feeds in a text. *)
Definition count_LF (s : str) : nat := count_occ N.eq_dec s LF.

(** A changelog as the script keeps it: the header line first and once,
    the last line ended, and no carriage return. *)
Definition well_kept (doc : str) : Prop :=
  header_once doc /\ ends_with_newline doc /\ ~ In CR doc.

(** ** The model on concrete inputs *)

Example py_escape : py "a\nb" = [97; 10; 98].
Proof. reflexivity. Qed.

Example split_empty : split LF [] = [[]].
Proof. reflexivity. Qed.

Example split_three : split LF (py "x\ny\n") = [py "x"; py "y"; py ""].
Proof. reflexivity. Qed.

Example join_three : join (py "\n") [py "x"; py "y"; py ""] = py "x\ny\n".
Proof. reflexivity. Qed.

Example strip_both : strip (py "  a b\n") = py "a b".
Proof. reflexivity. Qed.

Example universal_newlines_crlf : universal_newlines (py "a\r\nb\rc\n") = py "a\nb\nc\n".
Proof. reflexivity. Qed.

Example run_scenario :
  changelog (snd (run (inr (py "a1b2c3d Fix X\ne4f5g6h Add Y\n112233a Refactor Z"))
                      d20240501 None))
  = Some (py "# Changelog\n\n## 2024-05-01\n\n- a1b2c3d Fix X\n- e4f5g6h Add Y\n- 112233a Refactor Z\n\n").
Proof. vm_compute. reflexivity. Qed.

(** Two runs in a row, from an absent file: the second keeps the header
    line first and single, and appends its section after the first one. *)
Example run_twice :
  let log := py "a1b2c3d Fix X" in
  let first := changelog (snd (run (inr log) d20240501 None)) in
  changelog (snd (run (inr log) d20240501 first))
  = Some (py "# Changelog\n\n## 2024-05-01\n\n- a1b2c3d Fix X\n\n## 2024-05-01\n\n- a1b2c3d Fix X\n\n").
Proof. vm_compute. reflexivity. Qed.

(** ** Lemmas on split, join and strip *)

Section SplitJoin.

Variable sep : char.

Lemma split_nonempty (s : str) : split sep s <> [].
Proof.
  destruct s as [|c r]; simpl; [discriminate|].
  destruct (c =? sep); [discriminate|].
  destruct (split sep r); discriminate.
Qed.

Lemma split_app_sep (a b : str) :
  split sep (a ++ sep :: b) = split sep a ++ split sep b.
Proof.
  induction a as [|c a IH]; simpl.
  - now rewrite N.eqb_refl.
  - destruct (c =? sep); rewrite IH; [reflexivity|].
    destruct (split sep a) eqn:E; [now apply split_nonempty in E|reflexivity].
Qed.

Lemma split_no_sep (s : str) : ~ In sep s -> split sep s = [s].
Proof.
  induction s as [|c r IH]; simpl; intros H; [reflexivity|].
  destruct (N.eqb_spec c sep) as [->|_]; [exfalso; auto|].
  rewrite IH; auto.
Qed.

Lemma split_pieces (s : str) : Forall (fun p => ~ In sep p) (split sep s).
Proof.
  induction s as [|c r IH]; simpl.
  - constructor; auto.
  - destruct (N.eqb_spec c sep) as [->|Hc].
    + constructor; auto.
    + destruct (split sep r) as [|p ps]; inversion IH; subst; constructor;
        simpl; intuition.
Qed.

Lemma join_cons (p q : str) (rest : list str) :
  join [sep] (p :: q :: rest) = p ++ sep :: join [sep] (q :: rest).
Proof. reflexivity. Qed.

Lemma split_join (parts : list str) :
  parts <> [] ->
  split sep (join [sep] parts) = concat (map (split sep) parts).
Proof.
  induction parts as [|p rest IH]; [easy|intros _].
  destruct rest as [|q rest].
  - simpl. now rewrite app_nil_r.
  - rewrite join_cons, split_app_sep, IH by discriminate. reflexivity.
Qed.

Lemma split_join_lines (parts : list str) :
  parts <> [] -> Forall (fun p => ~ In sep p) parts ->
  split sep (join [sep] parts) = parts.
Proof.
  intros Hne Hall. rewrite split_join by assumption.
  clear Hne. induction Hall as [|p ps Hp _ IH]; simpl; [reflexivity|].
  now rewrite split_no_sep, IH.
Qed.

Lemma join_map_snoc {A} (f : A -> str) (l : list A) (x : str) :
  join [sep] (map f l ++ [x]) = concat (map (fun c => f c ++ [sep]) l) ++ x.
Proof.
  induction l as [|a l IH]; [reflexivity|].
  change (map f (a :: l) ++ [x]) with (f a :: (map f l ++ [x])).
  assert (Hne : exists q rest, map f l ++ [x] = q :: rest)
    by (destruct (map f l); simpl; eauto).
  destruct Hne as (q & rest & E).
  rewrite E, join_cons, <- E, IH. simpl.
  now rewrite <- !app_assoc.
Qed.

End SplitJoin.

Lemma startswith_app (p s : str) : startswith p (p ++ s) = true.
Proof. induction p as [|c p IH]; simpl; [reflexivity|]. now rewrite N.eqb_refl. Qed.

Lemma startswith_true (p s : str) :
  startswith p s = true -> exists t, s = p ++ t.
Proof.
  revert s; induction p as [|c p IH]; intros s; simpl.
  - now exists s.
  - destruct s as [|x s]; [discriminate|].
    intros H. apply andb_true_iff in H as [Hc Hp].
    apply N.eqb_eq in Hc as ->. destruct (IH _ Hp) as [t ->]. now exists t.
Qed.

Lemma startswith_cancel (p a b : str) :
  startswith (p ++ a) (p ++ b) = startswith a b.
Proof. induction p as [|c p IH]; simpl; [reflexivity|]. now rewrite N.eqb_refl. Qed.

(** ** What a run with a successful query does *)

Lemma update_changelog_ok (log : str) (d : date) (file : option str) (tr : list event) :
  let data := with_header (old_content_of file) ++ section_text d (commits_of log) in
  update_changelog (mkWorld (inr log) d file tr)
  = (inr tt, mkWorld (inr log) d (Some data) (tr ++ trace_of_write file data)).
Proof.
  intros data. subst data. unfold section_text, commits_of.
  cbv [update_changelog get_commit_log bind check_output ret git_log record_event].
  destruct (split LF (strip (universal_newlines log))) as [|c cs] eqn:E;
    [now apply split_nonempty in E|].
  destruct file as [f|];
    cbv [utcnow path_exists read_file open_write f_write record_event set_changelog
         git_log utc_today changelog trace old_content_of trace_of_write];
    rewrite <- !app_assoc; reflexivity.
Qed.

Lemma run_ok (log : str) (d : date) (file : option str) :
  let data := with_header (old_content_of file) ++ section_text d (commits_of log) in
  run (inr log) d file
  = (inr tt, mkWorld (inr log) d (Some data) (trace_of_write file data)).
Proof. unfold run. now rewrite update_changelog_ok. Qed.

(** ** The formatted section *)

Lemma digit_not_LF (n : N) : digit n <> LF.
Proof.
  intros H. change (@eq N (48 + n mod 10) 10) in H.
  pose proof (N.le_0_l (n mod 10)). lia.
Qed.

Lemma strftime_Ymd_no_LF (d : date) : ~ In LF (strftime_Ymd d).
Proof.
  unfold strftime_Ymd. simpl. intros H.
  repeat (destruct H as [H|H]; [first [now apply digit_not_LF in H | discriminate H]|]).
  exact H.
Qed.

Lemma bullet_no_LF (c : str) : ~ In LF c -> ~ In LF (bullet c).
Proof.
  unfold bullet. simpl. intros Hc [H|[H|H]]; [discriminate H|discriminate H|auto].
Qed.

Lemma section_text_eq (d : date) (commits : list str) :
  section_text d commits
  = py "## " ++ strftime_Ymd d ++ [LF] ++ [LF]
    ++ concat (map (fun c => bullet c ++ [LF]) commits) ++ [LF].
Proof.
  unfold section_text, new_section.
  change (py "\n") with [LF].
  change ([py "## " ++ strftime_Ymd d ++ [LF]] ++
          map (fun c => py "- " ++ c) commits ++ [[LF]])
    with ((py "## " ++ strftime_Ymd d ++ [LF]) :: (map bullet commits ++ [[LF]])).
  assert (Hne : exists q rest, map bullet commits ++ [[LF]] = q :: rest)
    by (destruct (map bullet commits); simpl; eauto).
  destruct Hne as (q & rest & E).
  rewrite E, join_cons, <- E, join_map_snoc.
  rewrite <- !app_assoc. reflexivity.
Qed.

Lemma section_text_head (d : date) (commits : list str) :
  exists t, section_text d commits = 35 :: t.
Proof. rewrite section_text_eq. simpl. eauto. Qed.

Lemma lines_of_joined (h : str) (bs : list str) :
  ~ In LF h -> Forall (fun b => ~ In LF b) bs ->
  split LF (join [LF] ([h ++ [LF]] ++ bs ++ [[LF]])) = [h; []] ++ bs ++ [[]; []].
Proof.
  intros Hh Hbs. rewrite split_join by discriminate.
  rewrite !map_app, !concat_app.
  change (map (split LF) [h ++ [LF]]) with [split LF (h ++ LF :: [])].
  rewrite split_app_sep, (@split_no_sep LF h Hh).
  change (concat [[h] ++ split LF []]) with [h; []].
  change (concat (map (split LF) [[LF]])) with [@nil char; []].
  f_equal. f_equal.
  induction Hbs as [|b bs Hb _ IH]; [reflexivity|].
  cbn [map concat]. now rewrite IH, (@split_no_sep LF b Hb).
Qed.

Lemma section_lines (d : date) (commits : list str) :
  Forall (fun c => ~ In LF c) commits ->
  lines (section_text d commits)
  = [py "## " ++ strftime_Ymd d; []] ++ map bullet commits ++ [[]; []].
Proof.
  intros Hc. unfold lines, section_text, new_section.
  change (py "\n") with [LF].
  rewrite (app_assoc (py "## ") (strftime_Ymd d) [LF]).
  change (map (fun c => py "- " ++ c) commits) with (map bullet commits).
  apply lines_of_joined.
  - intros H. apply in_app_or in H as [H|H].
    + simpl in H. intuition discriminate.
    + now apply strftime_Ymd_no_LF in H.
  - induction Hc as [|c cs Hc _ IH]; constructor; auto using bullet_no_LF.
Qed.

Lemma commits_of_no_LF (log : str) : Forall (fun c => ~ In LF c) (commits_of log).
Proof. apply split_pieces. Qed.

Lemma filter_bullets (pre post cs : list str) :
  forallb (fun l => negb (is_bullet l)) pre = true ->
  forallb (fun l => negb (is_bullet l)) post = true ->
  filter is_bullet (pre ++ map bullet cs ++ post) = map bullet cs.
Proof.
  intros Hpre Hpost. rewrite !filter_app.
  assert (Hnone : forall l, forallb (fun l => negb (is_bullet l)) l = true ->
                            filter is_bullet l = []).
  { induction l as [|x l IH]; simpl; [reflexivity|].
    intros H. apply andb_true_iff in H as [Hx Hl].
    apply negb_true_iff in Hx. rewrite Hx. auto. }
  rewrite (Hnone _ Hpre), (Hnone _ Hpost), app_nil_r. simpl.
  induction cs as [|c cs IH]; simpl; [reflexivity|]. now rewrite IH.
Qed.

(** ** The header conditional *)

Lemma with_header_eq (old : str) :
  with_header old
  = if startswith CHANGELOG_HEADER old then old else py "# Changelog\n\n" ++ old.
Proof. unfold with_header. now destruct (startswith CHANGELOG_HEADER old). Qed.

Lemma with_header_startswith (old rest : str) :
  startswith CHANGELOG_HEADER (with_header old ++ rest) = true.
Proof.
  rewrite with_header_eq.
  destruct (startswith CHANGELOG_HEADER old) eqn:E.
  - apply startswith_true in E as [t ->]. rewrite <- app_assoc. apply startswith_app.
  - change (py "# Changelog\n\n") with (CHANGELOG_HEADER ++ [LF; LF]).
    rewrite <- !app_assoc. apply startswith_app.
Qed.

Lemma header_block_startswith (old : str) (d : date) (commits : list str) :
  startswith (py "# Changelog\n\n") (with_header old ++ section_text d commits)
  = negb (startswith CHANGELOG_HEADER old) || startswith (py "# Changelog\n\n") old.
Proof.
  rewrite with_header_eq.
  destruct (startswith CHANGELOG_HEADER old) eqn:E; cbn [negb orb].
  - apply startswith_true in E as [t ->].
    destruct (section_text_head d commits) as [s ->].
    change (py "# Changelog\n\n") with (CHANGELOG_HEADER ++ [LF; LF]).
    rewrite <- app_assoc, !startswith_cancel.
    destruct t as [|a [|b t]]; reflexivity.
  - rewrite <- app_assoc. apply startswith_app.
Qed.

(** ** Claims settled on the run as a whole *)

(** Claim C1, at the input where the code departs from it.  The query
    succeeds with no commit at all (empty output) and the file holds
    [old notes] and a line feed.  [get_commit_log] returns the one-element
    list holding the empty string, the guard does not fire, and the file is
    rewritten with a header and a section whose only bullet is empty. *)
Theorem empty_query_rewrites_file :
  commits_of (py "") = [py ""]
  /\ run (inr (py "")) d20240501 (Some (py "old notes\n"))
     = (inr tt,
        mkWorld (inr (py "")) d20240501
          (Some (py "# Changelog\n\nold notes\n## 2024-05-01\n\n- \n\n"))
          [CheckOutput; UtcNow; PathExists; OpenRead; OpenWrite;
           FWrite (py "# Changelog\n\nold notes\n## 2024-05-01\n\n- \n\n")]).
Proof. split; vm_compute; reflexivity. Qed.

(** Claim C3 as stated fails: a prior content that starts with the header
    but has no blank line after it is kept as it is, so the written file
    does not start with the header followed by a blank line. *)
Lemma header_without_blank_line_kept :
  exists doc,
    changelog (snd (run (inr (py "a1b2c3d Fix X")) d20240501
                        (Some (py "# Changelog\nfoo\n")))) = Some doc
    /\ startswith (py "# Changelog\n\n") doc = false.
Proof. eexists. split; vm_compute; reflexivity. Qed.

(** Claim C3, amended: for every query output, date and prior file, the
    written content starts with the text [# Changelog]; it starts with the
    header followed by a blank line exactly when the prior content (as
    read) did not start with [# Changelog], or itself started with the
    header followed by a blank line. *)
Theorem written_starts_with_header (log : str) (d : date) (file : option str) :
  exists doc,
    changelog (snd (run (inr log) d file)) = Some doc
    /\ startswith CHANGELOG_HEADER doc = true
    /\ startswith (py "# Changelog\n\n") doc
       = negb (startswith CHANGELOG_HEADER (old_content_of file))
         || startswith (py "# Changelog\n\n") (old_content_of file).
Proof.
  rewrite run_ok. eexists. split; [reflexivity|]. split.
  - apply with_header_startswith.
  - apply header_block_startswith.
Qed.

(** Claim C4 as stated fails: the file written in the scenario is not the
    one the claim gives, for an absent file and for an empty one. *)
Lemma scenario_not_as_claimed :
  let log := py "a1b2c3d Fix X\ne4f5g6h Add Y\n112233a Refactor Z" in
  let claimed :=
    py "# Changelog\n\n## 2024-05-01\n- a1b2c3d Fix X\n- e4f5g6h Add Y\n- 112233a Refactor Z\n\n" in
  changelog (snd (run (inr log) d20240501 None)) <> Some claimed
  /\ changelog (snd (run (inr log) d20240501 (Some (py "")))) <> Some claimed.
Proof. split; vm_compute; discriminate. Qed.

(** Claim C4, amended: in the scenario (file absent or empty, the three
    commits, 2024-05-01) the file written is the header, a blank line, the
    heading, a blank line, the three bullets and a trailing blank line. *)
Theorem scenario_three_commits :
  let log := py "a1b2c3d Fix X\ne4f5g6h Add Y\n112233a Refactor Z" in
  let written :=
    py "# Changelog\n\n## 2024-05-01\n\n- a1b2c3d Fix X\n- e4f5g6h Add Y\n- 112233a Refactor Z\n\n" in
  changelog (snd (run (inr log) d20240501 None)) = Some written
  /\ changelog (snd (run (inr log) d20240501 (Some (py "")))) = Some written.
Proof. split; vm_compute; reflexivity. Qed.

Lemma update_changelog_query_error (e : exn) (d : date) (file : option str)
    (tr : list event) :
  update_changelog (mkWorld (inl e) d file tr)
  = (inl e, mkWorld (inl e) d file (tr ++ [CheckOutput])).
Proof. reflexivity. Qed.

(** Claim C8: when the query raises, the run ends with that exception, the
    stored file is the prior one (absent if it was absent), and the only
    call performed is the query itself: the file is never opened for
    writing and nothing is written to it. *)
Theorem query_failure_aborts (e : exn) (d : date) (file : option str) :
  let r := run (inl e) d file in
  fst r = inl e
  /\ changelog (snd r) = file
  /\ trace (snd r) = [CheckOutput]
  /\ existsb is_write_event (trace (snd r)) = false.
Proof.
  intros r. unfold r, run.
  rewrite update_changelog_query_error.
  repeat split.
Qed.

(** Claim C10: on every output of the subprocess [get_commit_log] returns a
    non-empty list, so the run never takes the early return: it goes on to
    open the file for writing and to write. *)
Theorem commit_list_never_empty (log : str) (d : date) (file : option str)
    (tr : list event) :
  let w := mkWorld (inr log) d file tr in
  (exists c cs, fst (get_commit_log w) = inr (c :: cs))
  /\ (exists data, trace (snd (update_changelog w)) = tr ++ trace_of_write file data
                   /\ existsb is_write_event (trace_of_write file data) = true
                   /\ changelog (snd (update_changelog w)) = Some data).
Proof.
  intros w. split.
  - unfold w. cbv [get_commit_log bind check_output ret git_log fst].
    destruct (split LF (strip (universal_newlines log))) as [|c cs] eqn:E;
      [now apply split_nonempty in E|eauto].
  - unfold w. rewrite update_changelog_ok. cbn [snd trace changelog].
    eexists. split; [reflexivity|]. split; [|reflexivity].
    destruct file; reflexivity.
Qed.

(** ** The section format *)

(** Claim C6 as stated fails: the text the code formats for one commit is
    not the heading directly followed by the bullet. *)
Lemma section_not_as_specified :
  section_text d20240501 [py "a1b2c3d Fix X"]
  <> section_as_specified d20240501 [py "a1b2c3d Fix X"].
Proof. vm_compute. discriminate. Qed.

(** Claim C6, amended: for every date and every sequence of commits the
    section text is the heading line, a blank line, one bullet line per
    commit in order, and a closing blank line, and nothing else. *)
Theorem section_format (d : date) (commits : list str) :
  section_text d commits
  = py "## " ++ strftime_Ymd d ++ py "\n"
    ++ py "\n"
    ++ concat (map (fun c => py "- " ++ c ++ py "\n") commits)
    ++ py "\n".
Proof.
  rewrite section_text_eq. reflexivity.
Qed.

(** ** Merging with the prior content *)

(** Claim C5 as stated fails on the separating blank line: for a prior
    content without header the header block is prepended, but the section
    is appended with nothing in between, so its heading comes right after
    the last prior line. *)
Lemma no_separator_inserted :
  let old := py "old notes\n" in
  let log := py "a1b2c3d Fix X" in
  exists doc,
    changelog (snd (run (inr log) d20240501 (Some old))) = Some doc
    /\ doc <> merged_as_specified old (section_text d20240501 (commits_of log))
    /\ lines doc = [py "# Changelog"; py ""; py "old notes"; py "## 2024-05-01";
                    py ""; py "- a1b2c3d Fix X"; py ""; py ""].
Proof.
  eexists. split; [vm_compute; reflexivity|].
  split; [vm_compute; discriminate|vm_compute; reflexivity].
Qed.

(** Claim C5, amended: for every prior content (as read) and every query
    output, the text written is the prior content, preceded by the header
    block exactly when it does not start with [# Changelog], immediately
    followed by the new section; the code puts no separator between them
    and never adds a header to a content that starts with one. *)
Theorem merge_and_persist (log : str) (d : date) (file : option str) :
  let old := old_content_of file in
  changelog (snd (run (inr log) d file))
  = Some ((if startswith (py "# Changelog") old
           then old
           else py "# Changelog\n\n" ++ old)
          ++ section_text d (commits_of log)).
Proof. intros old. rewrite run_ok. cbn [snd changelog]. now rewrite with_header_eq. Qed.

(** ** The prior content in the written file *)

Lemma universal_newlines_id (c : str) : ~ In CR c -> universal_newlines c = c.
Proof.
  induction c as [|x r IH]; [reflexivity|]. intros H.
  cbn [universal_newlines].
  destruct (N.eqb_spec x CR) as [->|_]; [exfalso; apply H; now left|].
  rewrite IH; [reflexivity|]. intros Hr. apply H. now right.
Qed.

Lemma not_substring_by_char (c : char) (doc sub : str) :
  existsb (N.eqb c) doc = false -> In c sub ->
  forall pre post, doc <> pre ++ sub ++ post.
Proof.
  intros Hdoc Hsub pre post ->.
  assert (existsb (N.eqb c) (pre ++ sub ++ post) = true); [|congruence].
  apply existsb_exists. exists c. split; [|apply N.eqb_refl].
  apply in_or_app. right. apply in_or_app. now left.
Qed.

(** Claim C9 as stated fails: a prior file with a carriage return (here a
    line ended the Windows way) is read with its line end translated to a
    line feed, and the written file holds no carriage return at all: the
    prior content is not a substring of it. *)
Lemma carriage_return_dropped :
  let prior := py "old notes\r\n" in
  exists doc,
    changelog (snd (run (inr (py "a1b2c3d Fix X")) d20240501 (Some prior))) = Some doc
    /\ forall pre post, doc <> pre ++ prior ++ post.
Proof.
  eexists. split; [vm_compute; reflexivity|].
  apply not_substring_by_char with (c := CR); [vm_compute; reflexivity|].
  vm_compute. tauto.
Qed.

(** Claim C9, amended: whenever the file is written, the prior content as
    the text-mode read returns it appears unmodified and contiguous in the
    new content, as a prefix when it starts with [# Changelog] and right
    after the prepended header block otherwise, followed by the new
    section; and a prior content without carriage return is read as it is
    stored, so that it is kept character for character. *)
Theorem prior_content_kept (log : str) (d : date) (file : option str) :
  let old := old_content_of file in
  changelog (snd (run (inr log) d file))
  = Some ((if startswith (py "# Changelog") old then py "" else py "# Changelog\n\n")
          ++ old ++ section_text d (commits_of log))
  /\ (forall c, file = Some c -> ~ In CR c -> old = c).
Proof.
  intros old. split.
  - rewrite run_ok. cbn [snd changelog]. rewrite with_header_eq. fold old.
    destruct (startswith CHANGELOG_HEADER old) eqn:E;
      change (startswith (py "# Changelog") old) with (startswith CHANGELOG_HEADER old);
      rewrite E; [reflexivity|now rewrite <- app_assoc].
  - intros c -> Hc. now apply universal_newlines_id.
Qed.

Lemma prior_content_kept_at_old_notes :
  changelog (snd (run (inr (py "a1b2c3d Fix X")) d20240501 (Some (py "old notes\n"))))
  = Some (py "# Changelog\n\n" ++ py "old notes\n"
          ++ section_text d20240501 (commits_of (py "a1b2c3d Fix X")))
  /\ old_content_of (Some (py "old notes\n")) = py "old notes\n".
Proof.
  destruct (prior_content_kept (py "a1b2c3d Fix X") d20240501 (Some (py "old notes\n")))
    as [Hw Hid].
  split.
  - exact Hw.
  - apply Hid; [reflexivity|]. vm_compute. intuition discriminate.
Defined.

(** ** The header line in the written file *)

Lemma hd_split_prefix (sep : char) (s : str) :
  exists t, s = hd [] (split sep s) ++ t.
Proof.
  induction s as [|c r [t IH]]; [now exists []|]. simpl.
  destruct (c =? sep); [now exists (c :: r)|].
  destruct (split sep r) as [|p ps] eqn:E; [now apply split_nonempty in E|].
  exists t. simpl in *. now rewrite IH at 1.
Qed.

Lemma header_once_startswith (old : str) :
  header_once old -> startswith CHANGELOG_HEADER old = true.
Proof.
  intros [Hfirst _]. destruct (hd_split_prefix LF old) as [t Ht].
  unfold first_line, lines in Hfirst. rewrite Hfirst in Ht. rewrite Ht.
  apply startswith_app.
Qed.

Lemma section_without_header (d : date) (commits : list str) :
  Forall (fun c => ~ In LF c) commits ->
  filter (str_eqb CHANGELOG_HEADER) (lines (section_text d commits)) = [].
Proof.
  intros Hc. rewrite section_lines by assumption.
  rewrite !filter_app.
  assert (Hb : filter (str_eqb CHANGELOG_HEADER) (map bullet commits) = []).
  { clear Hc. induction commits as [|c cs IH]; [reflexivity|].
    cbn [map filter]. change (str_eqb CHANGELOG_HEADER (bullet c)) with false.
    exact IH. }
  rewrite Hb. reflexivity.
Qed.

Lemma header_once_append (body sec : str) :
  header_once (body ++ [LF]) ->
  filter (str_eqb CHANGELOG_HEADER) (lines sec) = [] ->
  header_once (body ++ LF :: sec).
Proof.
  unfold header_once, first_line, header_count, lines.
  rewrite !split_app_sep, !filter_app, !length_app. intros [Hfirst Hcount] ->.
  destruct (split LF body) as [|l ls] eqn:E; [now apply split_nonempty in E|].
  split; [exact Hfirst|]. cbn in Hcount |- *. lia.
Qed.












(** ** Bullets and commit lines *)

Lemma lstrip_app_nonspace (x : str) (c : char) (y : str) :
  isspace c = false -> lstrip (x ++ c :: y) = lstrip x ++ c :: y.
Proof.
  intros Hc. induction x as [|a x IH]; cbn [app lstrip].
  - now rewrite Hc.
  - destruct (isspace a); [exact IH|reflexivity].
Qed.

Lemma rstrip_app_nonspace (a : str) (c : char) (b : str) :
  isspace c = false -> rstrip (a ++ c :: b) = a ++ c :: rstrip b.
Proof.
  intros Hc. unfold rstrip.
  rewrite rev_app_distr. cbn [rev]. rewrite <- app_assoc. cbn [app].
  rewrite lstrip_app_nonspace by assumption.
  rewrite rev_app_distr. cbn [rev]. rewrite rev_involutive, <- app_assoc.
  reflexivity.
Qed.

Lemma In_lstrip (x : char) (s : str) : In x (lstrip s) -> In x s.
Proof.
  induction s as [|c r IH]; cbn [lstrip]; [easy|].
  destruct (isspace c); [right; auto|easy].
Qed.

Lemma In_rstrip (x : char) (s : str) : In x (rstrip s) -> In x s.
Proof.
  unfold rstrip. intros H. apply in_rev in H. apply In_lstrip in H.
  now apply in_rev.
Qed.

Lemma join_head_nonspace (l : str) (rest : list str) :
  commit_line l -> exists c r, join [LF] (l :: rest) = c :: r /\ isspace c = false.
Proof.
  intros [_ (c & r & -> & Hc)]. destruct rest as [|q rest].
  - now exists c, r.
  - rewrite join_cons. now exists c, (r ++ LF :: join [LF] (q :: rest)).
Qed.

Lemma rstrip_join (ls : list str) :
  ls <> [] -> Forall commit_line ls ->
  rstrip (join [LF] ls) = join [LF] (stripped_lines ls).
Proof.
  unfold stripped_lines.
  induction ls as [|l rest IH]; [easy|]. intros _ Hall.
  inversion Hall as [|? ? Hl Hrest]; subst.
  destruct rest as [|q rest]; [reflexivity|].
  destruct (join_head_nonspace rest (Forall_inv Hrest)) as (c & r & Ej & Hc).
  rewrite join_cons, Ej.
  change (l ++ LF :: c :: r) with (l ++ [LF] ++ c :: r).
  rewrite app_assoc, (@rstrip_app_nonspace (l ++ [LF]) c r Hc).
  change (c :: rstrip r) with ([] ++ c :: rstrip r).
  rewrite <- (@rstrip_app_nonspace [] c r Hc). cbn [app].
  rewrite <- Ej, IH by (assumption || discriminate).
  rewrite <- app_assoc. cbn [app].
  change (removelast (l :: q :: rest)) with (l :: removelast (q :: rest)).
  change (last (l :: q :: rest) []) with (last (q :: rest) []).
  cbn [app].
  destruct (removelast (q :: rest) ++ [rstrip (last (q :: rest) [])]) eqn:E.
  - destruct (removelast (q :: rest)); discriminate.
  - now rewrite join_cons.
Qed.

Lemma strip_join (ls : list str) :
  ls <> [] -> Forall commit_line ls ->
  strip (join [LF] ls) = join [LF] (stripped_lines ls).
Proof.
  intros Hne Hall. unfold strip.
  destruct ls as [|l rest]; [easy|].
  destruct (join_head_nonspace rest (Forall_inv Hall)) as (c & r & Ej & Hc).
  rewrite Ej. cbn [lstrip]. rewrite Hc, <- Ej.
  now apply rstrip_join.
Qed.

Lemma stripped_lines_no_LF (ls : list str) :
  Forall commit_line ls -> Forall (fun l => ~ In LF l) (stripped_lines ls).
Proof.
  intros Hall. unfold stripped_lines. apply Forall_app. split.
  - induction Hall as [|l rest [Hl _] _ IH]; [constructor|].
    destruct rest; [constructor|]. constructor; assumption.
  - constructor; [|constructor]. intros H. apply In_rstrip in H.
    induction Hall as [|l rest [Hl _] Hrest IH]; [easy|].
    destruct rest; [now apply Hl|now apply IH].
Qed.

Lemma stripped_lines_length (ls : list str) :
  ls <> [] -> length (stripped_lines ls) = length ls.
Proof.
  intros Hne. unfold stripped_lines.
  assert (H : length ls = length (removelast ls ++ [last ls []]))
    by (f_equal; now apply app_removelast_last).
  rewrite H, !length_app. reflexivity.
Qed.

Lemma join_no_CR (ls : list str) :
  Forall (fun l => ~ In CR l) ls -> ~ In CR (join [LF] ls).
Proof.
  induction 1 as [|l rest Hl _ IH]; [easy|].
  destruct rest as [|q rest]; [exact Hl|].
  rewrite join_cons. intros H. apply in_app_or in H as [H|[H|H]];
    [now apply Hl|discriminate H|now apply IH].
Qed.

Lemma commits_of_join (ls : list str) :
  ls <> [] -> Forall commit_line ls -> Forall (fun l => ~ In CR l) ls ->
  commits_of (join [LF] ls) = stripped_lines ls.
Proof.
  intros Hne Hall Hcr. unfold commits_of.
  rewrite (@universal_newlines_id _ (join_no_CR Hcr)).
  rewrite strip_join by assumption.
  apply split_join_lines; [|now apply stripped_lines_no_LF].
  unfold stripped_lines. destruct (removelast ls); discriminate.
Qed.

Lemma section_bullets (d : date) (commits : list str) :
  Forall (fun c => ~ In LF c) commits ->
  filter is_bullet (lines (section_text d commits)) = map bullet commits.
Proof.
  intros Hc. rewrite section_lines by assumption.
  apply filter_bullets; reflexivity.
Qed.

Lemma stripped_lines_id (ls : list str) :
  ls <> [] -> rstrip (last ls []) = last ls [] -> stripped_lines ls = ls.
Proof.
  intros Hne H. unfold stripped_lines. rewrite H.
  symmetry. now apply app_removelast_last.
Qed.

(** Claim C7 as stated fails: the output of the query is read in text
    mode, so a carriage return inside a commit line comes back as a line
    feed and the line is cut in two.  Two commit lines, the second with a
    carriage return in its summary, give three bullets. *)
Lemma carriage_return_splits_commit :
  let ls := [py "6e66710 Add Y"; py "99f21b8 Fix\rX"] in
  Forall commit_line ls
  /\ exists doc,
       changelog (snd (run (inr (join (py "\n") ls)) d20240501 None)) = Some doc
       /\ filter is_bullet (lines doc)
          = [py "- 6e66710 Add Y"; py "- 99f21b8 Fix"; py "- X"]
       /\ length (filter is_bullet (lines doc)) <> length ls.
Proof.
  intros ls. split.
  - repeat constructor; try (vm_compute; intuition discriminate);
      do 2 eexists; split; vm_compute; reflexivity.
  - eexists. split; [vm_compute; reflexivity|].
    split; [vm_compute; reflexivity|vm_compute; discriminate].
Qed.

(** Claim C7, amended: when the query returns N > 0 commit lines, none of
    which holds a carriage return, the section that the run appends to the
    (possibly headered) prior content consists of the heading, a blank
    line, N bullet lines and two empty lines; the bullets are the commit
    lines in the order of the query, each after a dash and a space.  The
    one difference [strip] can make is the white space that ends the last
    line, which the last bullet does not carry. *)
Theorem one_bullet_per_commit (ls : list str) (d : date) (file : option str) :
  ls <> [] -> Forall commit_line ls -> Forall (fun l => ~ In CR l) ls ->
  exists sec,
    changelog (snd (run (inr (join (py "\n") ls)) d file))
    = Some (with_header (old_content_of file) ++ sec)
    /\ lines sec = [py "## " ++ strftime_Ymd d; py ""]
                   ++ map bullet (stripped_lines ls) ++ [py ""; py ""]
    /\ filter is_bullet (lines sec) = map bullet (stripped_lines ls)
    /\ length (filter is_bullet (lines sec)) = length ls
    /\ (rstrip (last ls []) = last ls [] ->
        filter is_bullet (lines sec) = map bullet ls).
Proof.
  intros Hne Hall Hcr. change (py "\n") with [LF].
  exists (section_text d (commits_of (join [LF] ls))).
  rewrite run_ok. split; [reflexivity|].
  rewrite (commits_of_join Hne Hall Hcr).
  pose proof (stripped_lines_no_LF Hall) as Hno.
  rewrite (section_bullets d Hno).
  split; [now apply section_lines|].
  split; [reflexivity|].
  split.
  - now rewrite length_map, stripped_lines_length.
  - intros Hlast. now rewrite stripped_lines_id.
Qed.

Lemma three_commits_three_bullets :
  let ls := [py "a1b2c3d Fix X"; py "e4f5g6h Add Y"; py "112233a Refactor Z"] in
  exists sec,
    changelog (snd (run (inr (join (py "\n") ls)) d20240501 None))
    = Some (with_header (old_content_of None) ++ sec)
    /\ filter is_bullet (lines sec) = map bullet ls.
Proof.
  intros ls.
  assert (Hne : ls <> []) by discriminate.
  assert (Hall : Forall commit_line ls).
  { repeat constructor; try (vm_compute; intuition discriminate);
      do 2 eexists; split; vm_compute; reflexivity. }
  assert (Hcr : Forall (fun l => ~ In CR l) ls)
    by (repeat constructor; vm_compute; intuition discriminate).
  destruct (one_bullet_per_commit d20240501 None Hne Hall Hcr)
    as (sec & Hdoc & _ & _ & _ & Hid).
  exists sec. split; [exact Hdoc|].
  apply Hid. vm_compute. reflexivity.
Defined.

(** ** Further properties: what [get_commit_log] returns *)

Lemma join_split (sep : char) (s : str) : join [sep] (split sep s) = s.
Proof.
  induction s as [|c r IH]; [reflexivity|]. cbn [split].
  destruct (split sep r) as [|p ps] eqn:E; [now apply split_nonempty in E|].
  destruct (c =? sep) eqn:Ec.
  - apply N.eqb_eq in Ec as ->. now rewrite join_cons, IH.
  - destruct ps as [|q ps].
    + cbn [join] in *. now rewrite IH.
    + rewrite join_cons in *. cbn [app]. now rewrite IH.
Qed.

Lemma split_length (sep : char) (s : str) :
  length (split sep s) = S (count_occ N.eq_dec s sep).
Proof.
  induction s as [|c r IH]; [reflexivity|]. cbn [split count_occ].
  destruct (N.eqb_spec c sep) as [->|Hc].
  - destruct (N.eq_dec sep sep); [|congruence]. cbn [length]. now rewrite IH.
  - destruct (N.eq_dec c sep); [congruence|].
    destruct (split sep r) as [|p ps] eqn:E; [now apply split_nonempty in E|].
    exact IH.
Qed.

Lemma lstrip_decompose (s : str) : exists ws, blank ws /\ s = ws ++ lstrip s.
Proof.
  induction s as [|c r (ws & Hws & IH)]; [exists []; split; [constructor|reflexivity]|].
  cbn [lstrip]. destruct (isspace c) eqn:Ec.
  - exists (c :: ws). split; [now constructor|]. cbn [app]. now rewrite <- IH.
  - exists []. split; [constructor|reflexivity].
Qed.

Lemma blank_rev (ws : str) : blank ws -> blank (rev ws).
Proof. unfold blank. apply Forall_rev. Qed.

Lemma rstrip_decompose (s : str) : exists ws, blank ws /\ s = rstrip s ++ ws.
Proof.
  destruct (lstrip_decompose (rev s)) as (ws & Hws & E).
  exists (rev ws). split; [now apply blank_rev|].
  unfold rstrip. rewrite <- rev_app_distr, <- E. now rewrite rev_involutive.
Qed.

Lemma lstrip_blank (ws : str) : blank ws -> lstrip ws = [].
Proof.
  induction 1 as [|c ws Hc _ IH]; [reflexivity|]. cbn [lstrip]. now rewrite Hc.
Qed.

Lemma lstrip_blank_app (ws s : str) : blank ws -> lstrip (ws ++ s) = lstrip s.
Proof.
  induction 1 as [|c ws Hc _ IH]; [reflexivity|]. cbn [app lstrip]. now rewrite Hc.
Qed.

Lemma rstrip_app_blank (s ws : str) : blank ws -> rstrip (s ++ ws) = rstrip s.
Proof.
  intros Hws. unfold rstrip. rewrite rev_app_distr.
  now rewrite lstrip_blank_app by now apply blank_rev.
Qed.

Lemma strip_blank (ws : str) : blank ws -> strip ws = [].
Proof. intros Hws. unfold strip. now rewrite lstrip_blank. Qed.

Lemma strip_app_blank (s ws : str) : blank ws -> strip (s ++ ws) = strip s.
Proof.
  intros Hws. unfold strip. induction s as [|c r IH].
  - cbn [app]. now rewrite (lstrip_blank Hws).
  - cbn [app lstrip]. destruct (isspace c); [exact IH|].
    change (c :: r ++ ws) with ((c :: r) ++ ws). now apply rstrip_app_blank.
Qed.

Lemma universal_newlines_no_CR (s : str) : ~ In CR (universal_newlines s).
Proof.
  assert (H : forall n s, (length s <= n)%nat -> ~ In CR (universal_newlines s)).
  { induction n as [|n IH]; intros [|c r] Hlen; cbn [length] in Hlen;
      try (cbn; tauto); [lia|].
    cbn [universal_newlines].
    destruct (N.eqb_spec c CR) as [->|Hc].
    - intros [H|H]; [discriminate H|].
      destruct r as [|x r']; [exact H|].
      cbn [length] in Hlen.
      destruct (x =? LF); revert H; apply IH; cbn [length]; lia.
    - intros [H|H]; [congruence|]. revert H. apply IH. lia. }
  now apply (H (length s)).
Qed.

Lemma In_split (sep : char) (s p : str) (x : char) :
  In p (split sep s) -> In x p -> In x s.
Proof.
  revert p. induction s as [|c r IH]; intros p; cbn [split].
  - intros [<-|[]] [].
  - destruct (c =? sep).
    + intros [<-|Hp] Hx; [destruct Hx|]. right. now apply (IH p).
    + destruct (split sep r) as [|q qs]; cbn [In].
      * intros [<-|[]] Hx. destruct Hx as [->|[]]. now left.
      * intros [<-|Hp] Hx.
        -- destruct Hx as [->|Hx]; [now left|]. right. apply (IH q); [now left|exact Hx].
        -- right. apply (IH p); [now right|exact Hx].
Qed.

Lemma universal_newlines_blank (s : str) : blank s -> blank (universal_newlines s).
Proof.
  assert (H : forall n s, (length s <= n)%nat -> blank s -> blank (universal_newlines s)).
  { induction n as [|n IH]; intros [|c r] Hlen Hb; cbn [length] in Hlen;
      try (cbn; constructor); [lia|].
    inversion Hb as [|? ? Hc Hr]; subst. cbn [universal_newlines].
    destruct (c =? CR).
    - constructor; [reflexivity|].
      destruct r as [|x r']; [constructor|].
      inversion Hr; subst. cbn [length] in Hlen.
      destruct (x =? LF); apply IH; (assumption || cbn [length]; lia).
    - constructor; [exact Hc|]. apply IH; [lia|exact Hr]. }
  now apply (H (length s)).
Qed.

Lemma universal_newlines_blank_prefix (ws s : str) :
  blank ws ->
  exists b b' t,
    blank b /\ blank b'
    /\ universal_newlines (ws ++ s) = b ++ t /\ universal_newlines s = b' ++ t.
Proof.
  assert (H : forall n ws, (length ws <= n)%nat -> blank ws ->
            exists b b' t,
              blank b /\ blank b'
              /\ universal_newlines (ws ++ s) = b ++ t
              /\ universal_newlines s = b' ++ t).
  { induction n as [|n IH]; intros [|c ws'] Hlen Hb; cbn [length] in Hlen;
      try (exists [], [], (universal_newlines s); repeat split; constructor);
      [lia|].
    inversion Hb as [|? ? Hc Hws']; subst.
    cbn [app universal_newlines]. destruct (c =? CR).
    - destruct ws' as [|x ws''].
      + cbn [app]. destruct s as [|y s'].
        * exists [LF], [], []. repeat split; repeat constructor.
        * destruct (N.eqb_spec y LF) as [->|Hy].
          -- exists [], [], (LF :: universal_newlines s').
             repeat split; constructor.
          -- exists [LF], [], (universal_newlines (y :: s')).
             repeat split; repeat constructor.
      + cbn [app]. inversion Hws'; subst. cbn [length] in Hlen.
        destruct (x =? LF).
        * destruct (IH ws'') as (b & b' & t & Hb1 & Hb2 & E1 & E2);
            [lia|assumption|].
          exists (LF :: b), b', t. rewrite E1.
          repeat split; try assumption. now constructor.
        * destruct (IH (x :: ws'')) as (b & b' & t & Hb1 & Hb2 & E1 & E2);
            [cbn [length]; lia|assumption|].
          exists (LF :: b), b', t. cbn [app] in E1. rewrite E1.
          repeat split; try assumption. now constructor.
    - destruct (IH ws') as (b & b' & t & Hb1 & Hb2 & E1 & E2); [lia|assumption|].
      exists (c :: b), b', t. rewrite E1.
      repeat split; try assumption. now constructor. }
  now apply (H (length ws)).
Qed.

Lemma universal_newlines_blank_suffix (s ws : str) :
  blank ws ->
  exists b b' t,
    blank b /\ blank b'
    /\ universal_newlines (s ++ ws) = t ++ b /\ universal_newlines s = t ++ b'.
Proof.
  intros Hws.
  assert (H : forall n s, (length s <= n)%nat ->
            exists b b' t,
              blank b /\ blank b'
              /\ universal_newlines (s ++ ws) = t ++ b
              /\ universal_newlines s = t ++ b').
  { assert (Hnil : exists b b' t,
              blank b /\ blank b'
              /\ universal_newlines ([] ++ ws) = t ++ b
              /\ universal_newlines [] = t ++ b').
    { exists (universal_newlines ws), [], [].
      repeat split; [now apply universal_newlines_blank|constructor]. }
    induction n as [|n IH]; intros [|c r] Hlen; cbn [length] in Hlen;
      try exact Hnil; [lia|].
    cbn [app universal_newlines]. destruct (c =? CR).
    - destruct r as [|x r'].
      + cbn [app].
        exists (LF :: match ws with
                      | [] => []
                      | d :: w' => if d =? LF then universal_newlines w'
                                   else universal_newlines ws
                      end), [LF], [].
        repeat split; repeat constructor.
        destruct ws as [|d w']; [constructor|].
        destruct (d =? LF); apply universal_newlines_blank; [|exact Hws].
        now inversion Hws.
      + cbn [app length] in *. destruct (x =? LF).
        * destruct (IH r') as (b & b' & t & Hb1 & Hb2 & E1 & E2); [lia|].
          exists b, b', (LF :: t). rewrite E1, E2. now repeat split.
        * destruct (IH (x :: r')) as (b & b' & t & Hb1 & Hb2 & E1 & E2);
            [cbn [length]; lia|].
          exists b, b', (LF :: t). cbn [app] in E1. rewrite E1, E2.
          now repeat split.
    - destruct (IH r) as (b & b' & t & Hb1 & Hb2 & E1 & E2); [lia|].
      exists b, b', (c :: t). rewrite E1, E2. now repeat split. }
  now apply (H (length s)).
Qed.

Lemma strip_blank_app (ws s : str) : blank ws -> strip (ws ++ s) = strip s.
Proof. intros Hws. unfold strip. now rewrite lstrip_blank_app. Qed.

Lemma strip_universal_newlines_around (ws1 log ws2 : str) :
  blank ws1 -> blank ws2 ->
  strip (universal_newlines (ws1 ++ log ++ ws2)) = strip (universal_newlines log).
Proof.
  intros H1 H2.
  destruct (universal_newlines_blank_prefix (log ++ ws2) H1)
    as (b & b' & t & Hb & Hb' & E1 & E2).
  destruct (universal_newlines_blank_suffix log H2)
    as (c & c' & u & Hc & Hc' & E3 & E4).
  rewrite E1, (strip_blank_app _ Hb), <- (strip_blank_app t Hb'), <- E2.
  now rewrite E3, E4, !strip_app_blank.
Qed.

(** Property X1: joining the commits that [get_commit_log] returns with
    line feeds gives back the output of the query as text mode hands it
    over (its [\r\n] and [\r] turned into [\n]), apart from white space
    before and after it: nothing inside that text is lost or invented by
    strip and split. *)
Theorem commit_log_round_trip (log : str) :
  exists ws1 ws2,
    blank ws1 /\ blank ws2
    /\ universal_newlines log = ws1 ++ join (py "\n") (commits_of log) ++ ws2.
Proof.
  destruct (lstrip_decompose (universal_newlines log)) as (ws1 & H1 & E1).
  destruct (rstrip_decompose (lstrip (universal_newlines log))) as (ws2 & H2 & E2).
  exists ws1, ws2. split; [exact H1|]. split; [exact H2|].
  unfold commits_of. change (py "\n") with [LF].
  rewrite join_split. unfold strip. now rewrite <- E2.
Qed.

(** Property X2: the list that [get_commit_log] returns has one element
    more than the output of the query, read in text mode and stripped, has
    line feeds; and no element holds a line feed or a carriage return:
    each bullet the run writes stays on one line. *)
Theorem commit_count (log : str) :
  length (commits_of log) = S (count_LF (strip (universal_newlines log)))
  /\ Forall (fun c => count_LF c = 0%nat /\ count_occ N.eq_dec c CR = 0%nat)
            (commits_of log).
Proof.
  split; [apply split_length|].
  pose proof (commits_of_no_LF log) as H.
  apply Forall_forall. intros c Hin.
  rewrite Forall_forall in H. split.
  - apply count_occ_not_In. now apply H.
  - apply count_occ_not_In. intros Hx.
    apply (@In_split LF _ c CR Hin) in Hx.
    unfold strip in Hx. apply In_rstrip, In_lstrip in Hx.
    now apply universal_newlines_no_CR in Hx.
Qed.

(** Property X3: white space around the output of the query (a final line
    feed, say) does not change what [get_commit_log] returns; in particular
    it adds no empty commit. *)
Theorem surrounding_whitespace_ignored (ws1 log ws2 : str) :
  blank ws1 -> blank ws2 ->
  commits_of (ws1 ++ log ++ ws2) = commits_of log.
Proof.
  intros H1 H2. unfold commits_of. f_equal.
  now apply strip_universal_newlines_around.
Qed.

Lemma final_line_feed_ignored :
  commits_of (py "" ++ py "a1b2c3d Fix X\ne4f5g6h Add Y" ++ py "\n")
  = commits_of (py "a1b2c3d Fix X\ne4f5g6h Add Y").
Proof.
  apply surrounding_whitespace_ignored.
  - constructor.
  - repeat constructor.
Defined.

(** Property X4: when the output of the query is white space only (empty
    included), [get_commit_log] returns the list holding one empty string,
    and the run writes a section whose single bullet is empty, whatever the
    prior file. *)
Theorem blank_output_single_empty_bullet (log : str) (d : date) (file : option str) :
  blank log ->
  commits_of log = [py ""]
  /\ changelog (snd (run (inr log) d file))
     = Some (with_header (old_content_of file)
             ++ py "## " ++ strftime_Ymd d ++ py "\n\n- \n\n").
Proof.
  intros Hlog.
  assert (Hc : commits_of log = [py ""])
    by (unfold commits_of;
        now rewrite (strip_blank (universal_newlines_blank Hlog))).
  split; [exact Hc|].
  rewrite run_ok. cbn [snd changelog]. rewrite Hc, section_text_eq.
  do 2 f_equal.
Qed.

Lemma blank_output_at_line_feed :
  commits_of (py " \n") = [py ""]
  /\ changelog (snd (run (inr (py " \n")) d20240501 None))
     = Some (with_header (old_content_of None)
             ++ py "## " ++ strftime_Ymd d20240501 ++ py "\n\n- \n\n").
Proof.
  apply blank_output_single_empty_bullet.
  repeat constructor.
Defined.

(** ** Further properties: the document written *)

Lemma ends_with_line_feed_concat (commits : list str) :
  commits <> [] ->
  exists b, concat (map (fun c => bullet c ++ [LF]) commits) = b ++ [LF].
Proof.
  intros Hne. rewrite (app_removelast_last [] Hne), map_app, concat_app.
  cbn [map concat]. rewrite app_nil_r.
  exists (concat (map (fun c => bullet c ++ [LF]) (removelast commits))
          ++ bullet (last commits [])).
  now rewrite <- !app_assoc.
Qed.

Lemma section_text_tail (d : date) (commits : list str) :
  commits <> [] -> exists body, section_text d commits = body ++ [LF; LF].
Proof.
  intros Hne. rewrite section_text_eq.
  destruct (ends_with_line_feed_concat Hne) as [b ->].
  exists (py "## " ++ strftime_Ymd d ++ [LF] ++ [LF] ++ b).
  rewrite <- !app_assoc. reflexivity.
Qed.

Lemma commits_of_nonempty (log : str) : commits_of log <> [].
Proof. apply split_nonempty. Qed.

(** Property X6: every document the run writes ends with a blank line,
    whatever the prior content and the output of the query: the section
    closes with its last bullet's line feed and one more. *)
Theorem written_ends_with_blank_line (log : str) (d : date) (file : option str) :
  exists body,
    changelog (snd (run (inr log) d file)) = Some (body ++ py "\n\n").
Proof.
  rewrite run_ok. cbn [snd changelog].
  destruct (section_text_tail d (commits_of_nonempty log)) as [body ->].
  exists (with_header (old_content_of file) ++ body).
  now rewrite <- app_assoc.
Qed.

(** ** Further properties: carriage returns and runs in a row *)

Lemma universal_newlines_app (p t : str) :
  ~ In CR p -> universal_newlines (p ++ t) = p ++ universal_newlines t.
Proof.
  induction p as [|c p IH]; [reflexivity|]. intros H.
  cbn [app universal_newlines].
  destruct (N.eqb_spec c CR) as [->|_]; [exfalso; apply H; now left|].
  rewrite IH; [reflexivity|]. intros Hp. apply H. now right.
Qed.

Lemma commits_of_no_CR (log : str) :
  ~ In CR log -> Forall (fun c => ~ In CR c) (commits_of log).
Proof.
  intros _. apply Forall_forall. intros p Hp Hx.
  unfold commits_of in Hp.
  apply (@In_split LF _ p CR Hp) in Hx.
  unfold strip in Hx. apply In_rstrip, In_lstrip in Hx.
  now apply universal_newlines_no_CR in Hx.
Qed.

Lemma digit_not_CR (n : N) : digit n <> CR.
Proof.
  intros H. change (@eq N (48 + n mod 10) 13) in H.
  pose proof (N.le_0_l (n mod 10)). lia.
Qed.

Lemma strftime_Ymd_no_CR (d : date) : ~ In CR (strftime_Ymd d).
Proof.
  unfold strftime_Ymd. simpl. intros H.
  repeat (destruct H as [H|H]; [first [now apply digit_not_CR in H | discriminate H]|]).
  exact H.
Qed.

Lemma section_text_no_CR (d : date) (commits : list str) :
  Forall (fun c => ~ In CR c) commits -> ~ In CR (section_text d commits).
Proof.
  intros Hc. rewrite section_text_eq.
  pose proof (@strftime_Ymd_no_CR d) as Hd.
  generalize dependent (strftime_Ymd d). intros ds Hd H.
  repeat (apply in_app_or in H as [H|H]);
    try (cbn in H; intuition discriminate).
  apply in_concat in H as (l & Hl & Hx).
  apply in_map_iff in Hl as (c & <- & Hin).
  rewrite Forall_forall in Hc. specialize (Hc c Hin).
  unfold bullet in Hx. cbn in Hx.
  destruct Hx as [Hx|[Hx|Hx]]; try discriminate Hx.
  apply in_app_or in Hx as [Hx|Hx]; [auto|cbn in Hx; intuition discriminate].
Qed.

Lemma with_header_no_CR (old : str) : ~ In CR old -> ~ In CR (with_header old).
Proof.
  intros Hold. rewrite with_header_eq.
  destruct (startswith CHANGELOG_HEADER old); [exact Hold|].
  intros H. apply in_app_or in H as [H|H]; [|auto].
  vm_compute in H. intuition discriminate.
Qed.

Lemma old_content_no_CR (file : option str) : ~ In CR (old_content_of file).
Proof. destruct file; [apply universal_newlines_no_CR|easy]. Qed.

Lemma written_no_CR (log : str) (d : date) (file : option str) :
  ~ In CR log ->
  ~ In CR (with_header (old_content_of file) ++ section_text d (commits_of log)).
Proof.
  intros Hlog H. apply in_app_or in H as [H|H].
  - revert H. apply with_header_no_CR, old_content_no_CR.
  - revert H. now apply section_text_no_CR, commits_of_no_CR.
Qed.

Lemma reread_starts_with_header (old sec : str) :
  startswith CHANGELOG_HEADER (universal_newlines (with_header old ++ sec)) = true.
Proof.
  pose proof (with_header_startswith old sec) as H.
  apply startswith_true in H as [t ->].
  rewrite universal_newlines_app; [apply startswith_app|].
  vm_compute. intuition discriminate.
Qed.

(** Property X7: a run on a file that an earlier run wrote never adds a
    second header: it writes that file, as the text-mode read returns it,
    followed by its own section. *)
Theorem second_run_adds_no_header (log1 log2 : str) (d1 d2 : date)
    (file : option str) :
  exists doc1,
    changelog (snd (run (inr log1) d1 file)) = Some doc1
    /\ changelog (snd (run (inr log2) d2 (Some doc1)))
       = Some (universal_newlines doc1 ++ section_text d2 (commits_of log2)).
Proof.
  rewrite run_ok. eexists. split; [reflexivity|].
  rewrite run_ok. cbn [snd changelog old_content_of].
  now rewrite with_header_eq, reread_starts_with_header.
Qed.

(** Property X8: when the output of the query holds no carriage return,
    neither does the file the run writes, whatever the line ends of the
    prior file were: the read turns them into line feeds and the write
    keeps them so. *)
Theorem written_without_carriage_return (log : str) (d : date) (file : option str) :
  ~ In CR log ->
  exists doc,
    changelog (snd (run (inr log) d file)) = Some doc
    /\ count_occ N.eq_dec doc CR = 0%nat.
Proof.
  intros Hlog. rewrite run_ok. eexists. split; [reflexivity|].
  apply count_occ_not_In. now apply written_no_CR.
Qed.

Lemma written_without_carriage_return_crlf_file :
  exists doc,
    changelog (snd (run (inr (py "a1b2c3d Fix X")) d20240501
                        (Some (py "old notes\r\n")))) = Some doc
    /\ count_occ N.eq_dec doc CR = 0%nat.
Proof.
  apply written_without_carriage_return.
  vm_compute. intuition discriminate.
Defined.

(** Property X9: when the output of the first query holds no carriage
    return, a second run keeps the file of the first one as it is and
    appends its section to it.  The script only ever appends: run twice on
    the same history and date, it writes the same section twice. *)
Theorem second_run_appends (log1 log2 : str) (d1 d2 : date) (file : option str) :
  ~ In CR log1 ->
  exists doc1,
    changelog (snd (run (inr log1) d1 file)) = Some doc1
    /\ changelog (snd (run (inr log2) d2 (Some doc1)))
       = Some (doc1 ++ section_text d2 (commits_of log2)).
Proof.
  intros Hlog. rewrite run_ok. eexists. split; [reflexivity|].
  rewrite run_ok. cbn [snd changelog old_content_of].
  rewrite with_header_eq, reread_starts_with_header.
  now rewrite (@universal_newlines_id _ (@written_no_CR log1 d1 file Hlog)).
Qed.

Lemma second_run_appends_same_history :
  exists doc1,
    changelog (snd (run (inr (py "a1b2c3d Fix X")) d20240501 None)) = Some doc1
    /\ changelog (snd (run (inr (py "a1b2c3d Fix X")) d20240501 (Some doc1)))
       = Some (doc1 ++ section_text d20240501 (commits_of (py "a1b2c3d Fix X"))).
Proof.
  apply second_run_appends.
  vm_compute. intuition discriminate.
Defined.

Lemma written_header_once (log : str) (d : date) (old : str) :
  settled old -> header_once (with_header old ++ section_text d (commits_of log)).
Proof.
  pose proof (section_without_header d (commits_of_no_LF log)) as Hsec.
  intros [Hnil | [Honce [body Hbody]]].
  - rewrite Hnil.
    change (with_header [] ++ section_text d (commits_of log))
      with ((CHANGELOG_HEADER ++ [LF]) ++ LF :: section_text d (commits_of log)).
    apply header_once_append; [|exact Hsec].
    split; vm_compute; reflexivity.
  - rewrite with_header_eq, (header_once_startswith Honce).
    rewrite Hbody in Honce |- *. rewrite <- app_assoc.
    now apply header_once_append.
Qed.

Lemma run_keeps_well_kept (log : str) (d : date) (file : option str) :
  ~ In CR log -> settled (old_content_of file) ->
  exists doc, changelog (snd (run (inr log) d file)) = Some doc /\ well_kept doc.
Proof.
  intros Hlog Hold. rewrite run_ok. eexists. split; [reflexivity|].
  split; [now apply written_header_once|]. split.
  - destruct (section_text_tail d (commits_of_nonempty log)) as [body ->].
    exists (with_header (old_content_of file) ++ body ++ [LF]).
    now rewrite <- !app_assoc.
  - now apply written_no_CR.
Qed.

Lemma well_kept_settled (doc : str) :
  well_kept doc -> settled (old_content_of (Some doc)).
Proof.
  intros (Honce & Hend & Hcr). cbn [old_content_of].
  rewrite (@universal_newlines_id doc Hcr). right. now split.
Qed.

Lemma run_all_keeps_well_kept (inputs : list (str * date)) (doc : str) :
  Forall (fun i => ~ In CR (fst i)) inputs -> well_kept doc ->
  exists doc', run_all inputs (Some doc) = Some doc' /\ well_kept doc'.
Proof.
  intros Hall. revert doc.
  induction Hall as [|[log d] rest Hlog _ IH]; intros doc Hdoc.
  - now exists doc.
  - cbn [run_all].
    destruct (@run_keeps_well_kept log d (Some doc) Hlog (well_kept_settled Hdoc))
      as (doc1 & -> & Hdoc1).
    now apply IH.
Qed.

(** Property X10: the invariant of the changelog holds after any number of
    runs.  Starting from an absent or empty file, or from a document that
    has the header line first and once and ends its last line, and with
    query outputs free of carriage returns, the file after the last run
    has the header line as its first line, holds it once, ends with a line
    feed and holds no carriage return. *)
Theorem header_once_after_runs (inputs : list (str * date)) (file : option str) :
  inputs <> [] ->
  Forall (fun i => ~ In CR (fst i)) inputs ->
  settled (old_content_of file) ->
  exists doc, run_all inputs file = Some doc /\ well_kept doc.
Proof.
  intros Hne Hall Hfile.
  destruct inputs as [|[log d] rest]; [easy|].
  inversion Hall as [|? ? Hlog Hrest]; subst. cbn [run_all].
  destruct (@run_keeps_well_kept log d file Hlog Hfile) as (doc1 & -> & Hdoc1).
  now apply run_all_keeps_well_kept.
Qed.

Lemma header_once_after_two_runs :
  exists doc,
    run_all [(py "a1b2c3d Fix X", d20240501); (py "e4f5g6h Add Y", mkDate 2024 5 2)] None
    = Some doc
    /\ well_kept doc.
Proof.
  apply header_once_after_runs.
  - discriminate.
  - repeat constructor; vm_compute; intuition discriminate.
  - left. reflexivity.
Defined.

Lemma run_all_from_document (inputs : list (str * date)) (doc : str) :
  Forall (fun i => ~ In CR (fst i)) inputs ->
  startswith CHANGELOG_HEADER doc = true -> ~ In CR doc ->
  run_all inputs (Some doc) = Some (doc ++ concat (map section_of inputs)).
Proof.
  intros Hall. revert doc.
  induction Hall as [|[log d] rest Hlog _ IH]; intros doc Hstart Hcr.
  - cbn. now rewrite app_nil_r.
  - cbn [run_all]. rewrite run_ok. cbn [snd changelog old_content_of].
    rewrite (@universal_newlines_id doc Hcr), with_header_eq, Hstart.
    rewrite IH.
    + cbn [map concat]. now rewrite <- app_assoc.
    + apply startswith_true in Hstart as [t ->].
      rewrite <- app_assoc. apply startswith_app.
    + intros H. apply in_app_or in H as [H|H]; [auto|].
      revert H. now apply section_text_no_CR, commits_of_no_CR.
Qed.

(** Property X11: starting from an absent or empty file, and with query
    outputs free of carriage returns, the file after any number of runs is
    the header block followed by the sections of the runs in the order of
    the runs, oldest first, with nothing else in between. *)
Theorem changelog_after_runs (inputs : list (str * date)) (file : option str) :
  inputs <> [] ->
  Forall (fun i => ~ In CR (fst i)) inputs ->
  old_content_of file = [] ->
  run_all inputs file
  = Some (py "# Changelog\n\n" ++ concat (map section_of inputs)).
Proof.
  intros Hne Hall Hfile.
  destruct inputs as [|[log d] rest]; [easy|].
  inversion Hall as [|? ? Hlog Hrest]; subst.
  cbn [run_all]. rewrite run_ok. cbn [snd changelog]. rewrite Hfile.
  change (with_header []) with (py "# Changelog\n\n").
  rewrite run_all_from_document.
  - cbn [map concat]. now rewrite <- app_assoc.
  - exact Hrest.
  - change (py "# Changelog\n\n") with (CHANGELOG_HEADER ++ [LF; LF]).
    rewrite <- app_assoc. apply startswith_app.
  - intros H. apply in_app_or in H as [H|H].
    + vm_compute in H. intuition discriminate.
    + revert H. now apply section_text_no_CR, commits_of_no_CR.
Qed.

Lemma changelog_after_two_runs :
  run_all [(py "a1b2c3d Fix X", d20240501); (py "e4f5g6h Add Y", mkDate 2024 5 2)] None
  = Some (py "# Changelog\n\n"
          ++ concat (map section_of
               [(py "a1b2c3d Fix X", d20240501); (py "e4f5g6h Add Y", mkDate 2024 5 2)])).
Proof.
  apply changelog_after_runs.
  - discriminate.
  - repeat constructor; vm_compute; intuition discriminate.
  - reflexivity.
Defined.

Example changelog_after_two_runs_text :
  run_all [(py "a1b2c3d Fix X", d20240501); (py "e4f5g6h Add Y", mkDate 2024 5 2)] None
  = Some (py "# Changelog\n\n## 2024-05-01\n\n- a1b2c3d Fix X\n\n## 2024-05-02\n\n- e4f5g6h Add Y\n\n").
Proof. vm_compute. reflexivity. Qed.
